(** * Artifact builders of the treeherder log parser

  A shallow embedding of [treeherder/log_parser/artifactbuilders.pyx]:
  the base class [ArtifactBuilderBase] with its [parse_line] and
  [get_artifact] methods, and the three subclasses that only fix the list
  of sub-parsers and the builder's name.

  The sub-parser classes come from the module [.parsers], which the
  builders import but do not define.  They enter the development as an
  interface ([SubParserAPI]); every result about the builders holds for
  any implementation of it. *)

From Stdlib Require Import String Ascii ZArith List Sorted.
From stdpp Require Import gmap strings list fin_maps.
Import ListNotations.

Local Open Scope string_scope.

(** ** Python strings: [in] and [s[:n]] *)

Module PyStr.

(** [s.startswith(p)] *)
Fixpoint startswith (p s : string) : bool :=
  match p, s with
  | EmptyString, _ => true
  | String _ _, EmptyString => false
  | String a p', String b s' =>
      if Ascii.eqb a b then startswith p' s' else false
  end.

(** [needle in hay]: the needle occurs at some position of [hay]. *)
Fixpoint contains (needle hay : string) : bool :=
  match hay with
  | EmptyString => startswith needle EmptyString
  | String _ hay' => startswith needle hay || contains needle hay'
  end.

(** [s[:n]] for a non-negative bound [n]. *)
Fixpoint slice_to (n : nat) (s : string) : string :=
  match n, s with
  | O, _ => EmptyString
  | S _, EmptyString => EmptyString
  | S n', String c s' => String c (slice_to n' s')
  end.

(** [s[n:]], used only to state what [slice_to] cuts off. *)
Fixpoint slice_from (n : nat) (s : string) : string :=
  match n, s with
  | O, _ => s
  | S _, EmptyString => EmptyString
  | S n', String _ s' => slice_from n' s'
  end.

End PyStr.

(** ** Sub-parsers

  [from .parsers import (ErrorParser, TinderboxPrintParser, HeaderParser,
  StepParser, TalosParser)]: the classes are defined elsewhere.  The
  builders construct four of them and use the attributes [name] and
  [complete] and the methods [parse_line] and [get_artifact]. *)

(** The constructor calls made by the builders, with their arguments. *)
Inductive ParserCtor : Type :=
| TinderboxPrintParser
| HeaderParser
| StepParser (check_errors : bool)
| TalosParser.

#[global] Instance ParserCtor_eq_dec : EqDecision ParserCtor.
Proof. solve_decision. Defined.

(** How a call that returns nothing ends: it returns, or it raises. *)
Inductive outcome (Exn : Type) : Type :=
| Returned
| Raised (e : Exn).
Arguments Returned {Exn}.
Arguments Raised {Exn} e.

(** Modelled from the spec: the sub-parser classes of [.parsers] are missing;
    this is their capability contract.  [sp_new] runs a constructor,
    [sp_name] and [sp_complete] read the attributes [name] and [complete]
    of the object, [sp_parse_line] is the line-consuming method (it leaves
    the object in a new state, also when it raises) and [sp_get_artifact]
    the artifact-producing one, a read of the state ("callable at any time,
    idempotent, returning the parser's accumulated structured result").
    Nothing is assumed about how the state, the name or the flag evolve. *)
Class SubParserAPI (PState Fragment Exn : Type) : Type := {
  sp_new : ParserCtor -> PState;
  sp_name : PState -> string;
  sp_complete : PState -> bool;
  sp_parse_line : PState -> string -> Z -> PState * outcome Exn;
  sp_get_artifact : PState -> Fragment
}.

(** The values stored in the artifact dict: [None] or a string for the url,
  a sub-parser's artifact for the other keys. *)
Inductive PyVal (Fragment : Type) : Type :=
| VNone
| VStr (s : string)
| VFrag (f : Fragment).
Arguments VNone {Fragment}.
Arguments VStr {Fragment} s.
Arguments VFrag {Fragment} f.

Definition of_url {Fragment : Type} (url : option string) : PyVal Fragment :=
  match url with
  | None => VNone
  | Some s => VStr s
  end.

(** One invocation of a sub-parser's [parse_line]: which element of
  [self.parsers] was called, and with which arguments. *)
Record Call : Type := mkCall {
  callee : nat;
  arg_line : string;
  arg_lineno : Z
}.

#[global] Instance Call_eq_dec : EqDecision Call.
Proof. solve_decision. Defined.

Definition MAX_LINE_LENGTH : nat := 500.

(** Lines 41-42: the line as it is handed on. *)
Definition truncate (line : string) : string :=
  if negb (PyStr.contains "TALOSDATA" line) && negb (PyStr.contains "TalosResult" line)
  then PyStr.slice_to MAX_LINE_LENGTH line
  else line.

Section Builders.

Context {PState Fragment Exn : Type}.
Context {API : SubParserAPI PState Fragment Exn}.

(** A sub-parser object: the constructor call that made it (it never
    changes) and its current state. *)
Record Parser : Type := mkParser {
  made_by : ParserCtor;
  pstate : PState
}.

Definition new_parser (c : ParserCtor) : Parser :=
  {| made_by := c; pstate := sp_new c |}.

Definition name_of (sp : Parser) : string := sp_name (pstate sp).
Definition complete (sp : Parser) : bool := sp_complete (pstate sp).
Definition fragment_of (sp : Parser) : Fragment := sp_get_artifact (pstate sp).

(** The attributes of a builder. *)
Record Builder : Type := mkBuilder {
  artifact : gmap string (PyVal Fragment);
  lineno : Z;
  parsers : list Parser;
  name : string
}.

(** What a method call leaves behind: the object after the call, the
    sub-parser invocations it made, in order, and how it ended. *)
Record Ran : Type := mkRan {
  after : Builder;
  trace : list Call;
  status : outcome Exn
}.

(** [ArtifactBuilderBase.__init__] *)
Definition ArtifactBuilderBase (url : option string) : Builder :=
  {| artifact := {[ "logurl" := of_url url ]};
     lineno := 0;
     parsers := [];
     name := "Generic Artifact" |}.

(** The loop of lines 44-46 over the elements of [self.parsers] from
    position [idx] on.  A raise ends the loop: the raising parser keeps
    the state it reached, the later ones are not visited. *)
Fixpoint dispatch (idx : nat) (ps : list Parser) (line : string) (n : Z)
  : list Parser * list Call * outcome Exn :=
  match ps with
  | [] => ([], [], Returned)
  | parser :: rest =>
      if complete parser then
        let '(rest', calls, o) := dispatch (S idx) rest line n in
        (parser :: rest', calls, o)
      else
        let '(st, o) := sp_parse_line (pstate parser) line n in
        let parser' := {| made_by := made_by parser; pstate := st |} in
        let c := {| callee := idx; arg_line := line; arg_lineno := n |} in
        match o with
        | Raised e => (parser' :: rest, [c], Raised e)
        | Returned =>
            let '(rest', calls, o') := dispatch (S idx) rest line n in
            (parser' :: rest', c :: calls, o')
        end
  end.

(** [ArtifactBuilderBase.parse_line]; line 48 is reached only when the
    loop was not left by a raise. *)
Definition parse_line (self : Builder) (line : string) : Ran :=
  let line := truncate line in
  let '(ps, calls, o) := dispatch 0 (parsers self) line (lineno self) in
  {| after := {| artifact := artifact self;
                 lineno := match o with
                           | Returned => lineno self + 1
                           | Raised _ => lineno self
                           end;
                 parsers := ps;
                 name := name self |};
     trace := calls;
     status := o |}.

(** The loop of lines 52-53 on the dict [self.artifact]. *)
Definition store (a : gmap string (PyVal Fragment)) (sp : Parser)
  : gmap string (PyVal Fragment) :=
  <[ name_of sp := VFrag (fragment_of sp) ]> a.

(** [ArtifactBuilderBase.get_artifact]: the builder after the call, and
    the returned dict, which is [self.artifact] itself. *)
Definition get_artifact (self : Builder) : Builder * gmap string (PyVal Fragment) :=
  let a := foldl store (artifact self) (parsers self) in
  ({| artifact := a;
      lineno := lineno self;
      parsers := parsers self;
      name := name self |}, a).

(** The subclasses: [super().__init__(url)], then the two assignments. *)
Definition wire (self : Builder) (ps : list Parser) (nm : string) : Builder :=
  {| artifact := artifact self;
     lineno := lineno self;
     parsers := ps;
     name := nm |}.

Definition BuildbotJobArtifactBuilder (url : option string) : Builder :=
  wire (ArtifactBuilderBase url)
       [new_parser TinderboxPrintParser]
       "Job Info".

Definition BuildbotLogViewArtifactBuilder (url : option string) (check_errors : bool)
  : Builder :=
  wire (ArtifactBuilderBase url)
       [new_parser HeaderParser; new_parser (StepParser check_errors)]
       "Structured Log".

Definition BuildbotPerformanceDataArtifactBuilder (url : option string)
           (check_errors : bool) : Builder :=
  wire (ArtifactBuilderBase url)
       [new_parser TalosParser]
       "talos_data".

(** ** Driving a builder

  A caller constructs one of the three builders, calls [parse_line] for
  each line of the log and [get_artifact] when it likes.  A caller that
  catches an exception can go on using the builder, so a run does not stop
  at a raise. *)

Inductive Variant : Type :=
| JobInfo
| LogView
| PerfData.

(** Does the constructor of the variant have a [check_errors] parameter? *)
Definition accepts_check_errors (v : Variant) : bool :=
  match v with
  | JobInfo => false
  | LogView | PerfData => true
  end.

(** The [check_errors] arguments found in a constructor call. *)
Definition ctor_flags (c : ParserCtor) : list bool :=
  match c with
  | StepParser check_errors => [check_errors]
  | TinderboxPrintParser | HeaderParser | TalosParser => []
  end.

Inductive Op : Type :=
| ParseLine (line : string)
| GetArtifact.

Definition construct (v : Variant) (url : option string) (check_errors : bool)
  : Builder :=
  match v with
  | JobInfo => BuildbotJobArtifactBuilder url
  | LogView => BuildbotLogViewArtifactBuilder url check_errors
  | PerfData => BuildbotPerformanceDataArtifactBuilder url check_errors
  end.

(** The [check_errors] values that reached a sub-parser constructor. *)
Definition forwarded_flags (self : Builder) : list bool :=
  flat_map ctor_flags (map made_by (parsers self)).

Definition step (self : Builder) (op : Op) : Ran :=
  match op with
  | ParseLine line => parse_line self line
  | GetArtifact =>
      {| after := fst (get_artifact self); trace := []; status := Returned |}
  end.

(** The builder after a sequence of calls. *)
Definition run (self : Builder) (ops : list Op) : Builder :=
  foldl (fun b op => after (step b op)) self ops.

(** What each call of the sequence did. *)
Fixpoint history (self : Builder) (ops : list Op) : list (Op * Ran) :=
  match ops with
  | [] => []
  | op :: ops' =>
      let r := step self op in
      (op, r) :: history (after r) ops'
  end.

Definition is_parse_line (op : Op) : bool :=
  match op with
  | ParseLine _ => true
  | GetArtifact => false
  end.

Definition returned (r : Ran) : bool :=
  match status r with
  | Returned => true
  | Raised _ => false
  end.

(** The calls of [parse_line] in a history, and those that returned. *)
Definition attempted (h : list (Op * Ran)) : nat :=
  length (List.filter (fun x => is_parse_line (fst x)) h).

Definition completed (h : list (Op * Ran)) : nat :=
  length (List.filter (fun x => is_parse_line (fst x) && returned (snd x)) h).

(** Positions of the sub-parsers that are not complete, in list order. *)
Fixpoint pending (idx : nat) (ps : list Parser) : list nat :=
  match ps with
  | [] => []
  | p :: rest =>
      if complete p then pending (S idx) rest else idx :: pending (S idx) rest
  end.

(** The round of the loop for [p] does not raise: [p] is skipped, or its
    [parse_line] returns. *)
Definition passes (line : string) (n : Z) (p : Parser) : Prop :=
  complete p = true \/ snd (sp_parse_line (pstate p) line n) = Returned.

(** The last element of [self.parsers] whose name is [k]: the one whose
    artifact the loop of [get_artifact] leaves under [k]. *)
Fixpoint named (k : string) (ps : list Parser) : option Parser :=
  match ps with
  | [] => None
  | p :: rest =>
      match named k rest with
      | Some q => Some q
      | None => if decide (name_of p = k) then Some p else None
      end
  end.

End Builders.

Arguments Parser : clear implicits.
Arguments Builder : clear implicits.
Arguments Ran : clear implicits.

(** ** One sub-parser on its own

    What the rounds of the loop do to a single sub-parser when no round
    raises: a complete one is left alone, a pending one is given the line.
    [advance_all] follows one sub-parser over the lines of a log, numbered
    from [n] on. *)

Section Solo.

Context {PState Fragment Exn : Type}.
Context {API : SubParserAPI PState Fragment Exn}.

Definition advance (line : string) (n : Z) (p : Parser PState) : Parser PState :=
  if complete p
  then p
  else {| made_by := made_by p; pstate := fst (sp_parse_line (pstate p) line n) |}.

Fixpoint advance_all (lines : list string) (n : Z) (p : Parser PState) : Parser PState :=
  match lines with
  | [] => p
  | line :: rest => advance_all rest (n + 1) (advance (truncate line) n p)
  end.

(** Two builders that differ at most in [self.artifact]. *)
Definition same_parsing (b b' : Builder PState Fragment) : Prop :=
  parsers b = parsers b' /\ lineno b = lineno b' /\ name b = name b'.

(** The lines of the [parse_line] calls of a sequence of calls. *)
Fixpoint lines_of (ops : list Op) : list string :=
  match ops with
  | [] => []
  | ParseLine line :: rest => line :: lines_of rest
  | GetArtifact :: rest => lines_of rest
  end.

(** What the sub-parsers saw of a call: the invocations and how it ended. *)
Definition seen_by_parsers (h : list (Op * Ran PState Fragment Exn))
  : list (list Call * outcome Exn) :=
  map (fun x => (trace (snd x), status (snd x)))
      (List.filter (fun x => is_parse_line (fst x)) h).

End Solo.

(** ** A sample implementation of the sub-parser interface

  Used to run the builders on concrete logs.  Every parser records the
  lines it is given; the header parser is complete after a line with
  "HEADER-END", the step parser after "STEP-END"; a line with "BOOM" makes
  any parser raise after it has recorded the line. *)

Module Sample.

Record state : Type := mkState {
  kind : ParserCtor;
  seen : list (Z * string);
  finished : bool
}.

Inductive error : Type :=
| ParseError (lineno : Z).

Definition fragment : Type := list (Z * string).

Definition new (c : ParserCtor) : state :=
  {| kind := c; seen := []; finished := false |}.

Definition label (st : state) : string :=
  match kind st with
  | TinderboxPrintParser => "job_details"
  | HeaderParser => "header"
  | StepParser _ => "step_data"
  | TalosParser => "talos_data"
  end.

Definition closes (c : ParserCtor) (line : string) : bool :=
  match c with
  | HeaderParser => PyStr.contains "HEADER-END" line
  | StepParser _ => PyStr.contains "STEP-END" line
  | TinderboxPrintParser | TalosParser => false
  end.

Definition feed (st : state) (line : string) (n : Z) : state * outcome error :=
  let st' := {| kind := kind st;
                seen := (seen st ++ [(n, line)])%list;
                finished := closes (kind st) line |} in
  if PyStr.contains "BOOM" line then (st', Raised (ParseError n)) else (st', Returned).

#[global] Instance api : SubParserAPI state fragment error := {|
  sp_new := new;
  sp_name := label;
  sp_complete := finished;
  sp_parse_line := feed;
  sp_get_artifact := seen
|}.

(** A line of [n] characters ['x']. *)
Fixpoint xs (n : nat) : string :=
  match n with
  | O => EmptyString
  | S n' => String "x" (xs n')
  end.

Definition log_url : string := "http://x/log.txt".

Definition job : Builder state fragment := construct JobInfo (Some log_url) true.
Definition viewer : Builder state fragment := construct LogView (Some log_url) true.
Definition perf : Builder state fragment := construct PerfData (Some log_url) true.

(** The log viewer's builder once its step parser is complete, and once its
    header parser is. *)
Definition viewer_steps_done : Builder state fragment :=
  after (parse_line viewer "STEP-END").

Definition viewer_header_done : Builder state fragment :=
  after (parse_line viewer "HEADER-END").

Definition header_at (seen : fragment) (finished : bool) : Parser state :=
  mkParser HeaderParser (mkState HeaderParser seen finished).

Definition steps_at (seen : fragment) (finished : bool) : Parser state :=
  mkParser (StepParser true) (mkState (StepParser true) seen finished).

Definition session : list Op :=
  [ParseLine "Started"; GetArtifact; ParseLine (xs 600); ParseLine "STEP-END";
   ParseLine "tail"].

(** The log viewer's builder once both of its sub-parsers are complete. *)
Definition viewer_all_done : Builder state fragment :=
  after (parse_line viewer "HEADER-END STEP-END").

End Sample.

(** * Properties *)

(** ** Strings *)

Module PyStrFacts.
Import PyStr.

Lemma app_String c s t : String.app (String c s) t = String c (String.app s t).
Proof. reflexivity. Qed.

Lemma startswith_spec p s :
  startswith p s = true <-> exists post, s = String.app p post.
Proof.
  revert s; induction p as [|a p IH]; intros s; simpl.
  - split; [intros _; now exists s | reflexivity].
  - destruct s as [|b s].
    + split; [discriminate | intros [post H]; discriminate].
    + destruct (Ascii.eqb_spec a b) as [->|Hab].
      * rewrite IH. split; intros [post H]; exists post.
        -- now rewrite H.
        -- now inversion H.
      * split; [discriminate|].
        intros [post H]. rewrite app_String in H. injection H as -> _.
        now destruct Hab.
Qed.

(** [contains] is Python's [in] on strings: an occurrence anywhere. *)
Lemma contains_spec needle hay :
  contains needle hay = true <->
  exists pre post, hay = String.app pre (String.app needle post).
Proof.
  induction hay as [|c hay IH]; simpl.
  - rewrite startswith_spec. split.
    + intros [post H]. now exists EmptyString, post.
    + intros [pre [post H]]. destruct pre as [|d pre].
      * now exists post.
      * discriminate.
  - rewrite orb_true_iff, startswith_spec, IH. split.
    + intros [[post H]|[pre [post H]]].
      * now exists EmptyString, post.
      * exists (String c pre), post. rewrite app_String. now rewrite H.
    + intros [pre [post H]]. destruct pre as [|d pre].
      * left. now exists post.
      * right. rewrite app_String in H. injection H as _ H. now exists pre, post.
Qed.

Lemma slice_to_length n s :
  String.length (slice_to n s) = Nat.min n (String.length s).
Proof.
  revert s; induction n as [|n IH]; intros [|c s]; simpl; auto.
Qed.

Lemma slice_to_all n s : String.length s <= n -> slice_to n s = s.
Proof.
  revert s; induction n as [|n IH]; intros [|c s]; simpl; intros H;
    try reflexivity; try lia.
  f_equal. apply IH. lia.
Qed.

Lemma slice_split n s : s = String.app (slice_to n s) (slice_from n s).
Proof.
  revert s; induction n as [|n IH]; intros [|c s]; simpl; try reflexivity.
  rewrite app_String. f_equal. apply IH.
Qed.

Lemma slice_to_prefix n s : startswith (slice_to n s) s = true.
Proof. apply startswith_spec. exists (slice_from n s). apply slice_split. Qed.

End PyStrFacts.

(** ** The truncation policy *)

Lemma truncate_unmarked (line : string) :
  PyStr.contains "TALOSDATA" line = false ->
  PyStr.contains "TalosResult" line = false ->
  truncate line = PyStr.slice_to MAX_LINE_LENGTH line.
Proof. intros H1 H2. unfold truncate. now rewrite H1, H2. Qed.

Lemma truncate_marked (line : string) :
  PyStr.contains "TALOSDATA" line = true \/ PyStr.contains "TalosResult" line = true ->
  truncate line = line.
Proof.
  intros [H|H]; unfold truncate; rewrite H; simpl; [reflexivity|].
  now rewrite andb_false_r.
Qed.

(** ** The dispatch loop *)

Section DispatchFacts.

Context {PState Fragment Exn : Type}.
Context {API : SubParserAPI PState Fragment Exn}.

Local Abbreviation parser := (Parser PState).
Local Abbreviation builder := (Builder PState Fragment).

(** The four ways one round of the loop can go. *)
Lemma dispatch_nil idx line n :
  dispatch idx ([] : list parser) line n = ([], [], Returned).
Proof. reflexivity. Qed.

Lemma dispatch_skip idx (p : parser) rest line n :
  complete p = true ->
  dispatch idx (p :: rest) line n =
  (p :: (dispatch (S idx) rest line n).1.1,
   (dispatch (S idx) rest line n).1.2,
   (dispatch (S idx) rest line n).2).
Proof.
  intros Hc. simpl. rewrite Hc.
  now destruct (dispatch (S idx) rest line n) as [[? ?] ?].
Qed.

Lemma dispatch_raise idx (p : parser) rest line n st e :
  complete p = false ->
  sp_parse_line (pstate p) line n = (st, Raised e) ->
  dispatch idx (p :: rest) line n =
  (mkParser (made_by p) st :: rest, [mkCall idx line n], Raised e).
Proof. intros Hc Hp. simpl. now rewrite Hc, Hp. Qed.

Lemma dispatch_call idx (p : parser) rest line n st :
  complete p = false ->
  sp_parse_line (pstate p) line n = (st, Returned) ->
  dispatch idx (p :: rest) line n =
  (mkParser (made_by p) st :: (dispatch (S idx) rest line n).1.1,
   mkCall idx line n :: (dispatch (S idx) rest line n).1.2,
   (dispatch (S idx) rest line n).2).
Proof.
  intros Hc Hp. simpl. rewrite Hc, Hp.
  now destruct (dispatch (S idx) rest line n) as [[? ?] ?].
Qed.

Ltac dispatch_round p rest idx line n :=
  let Hc := fresh "Hc" in
  let Hp := fresh "Hp" in
  let st := fresh "st" in
  let e := fresh "e" in
  destruct (complete p) eqn:Hc;
  [ rewrite (dispatch_skip idx p rest line n Hc)
  | destruct (sp_parse_line (pstate p) line n) as [st [|e]] eqn:Hp;
    [ rewrite (dispatch_call idx p rest line n st Hc Hp)
    | rewrite (dispatch_raise idx p rest line n st e Hc Hp) ] ];
  cbn [fst snd].

(** The list keeps its length and its elements their identity. *)
Lemma dispatch_made_by idx (ps : list parser) line n :
  map made_by (dispatch idx ps line n).1.1 = map made_by ps.
Proof.
  revert idx; induction ps as [|p rest IH]; intros idx; [reflexivity|].
  dispatch_round p rest idx line n; cbn [map made_by]; now rewrite ?IH.
Qed.

Lemma dispatch_length idx (ps : list parser) line n :
  length (dispatch idx ps line n).1.1 = length ps.
Proof.
  rewrite <- (length_map made_by), dispatch_made_by. apply length_map.
Qed.

(** Who is pending. *)
Lemma pending_spec idx (ps : list parser) j :
  j ∈ pending idx ps <->
  exists i p, j = idx + i /\ ps !! i = Some p /\ complete p = false.
Proof.
  revert idx; induction ps as [|p rest IH]; intros idx; cbn [pending].
  - split; [intros H; inversion H | intros (i & q & _ & H & _); discriminate].
  - destruct (complete p) eqn:Hc; rewrite ?elem_of_cons, IH; split.
    + intros (i & q & -> & Hq & Hn). exists (S i), q. split; [lia | now split].
    + intros ([|i] & q & -> & Hq & Hn); cbn in Hq.
      * congruence.
      * exists i, q. split; [lia | now split].
    + intros [->|(i & q & -> & Hq & Hn)].
      * exists 0, p. split; [lia | now split].
      * exists (S i), q. split; [lia | now split].
    + intros ([|i] & q & -> & Hq & Hn); cbn in Hq.
      * left. lia.
      * right. exists i, q. split; [lia | now split].
Qed.

Lemma pending_ge idx (ps : list parser) j : j ∈ pending idx ps -> idx <= j.
Proof. rewrite pending_spec. intros (i & p & -> & _). lia. Qed.


(** The invocations are those of pending parsers, in list order, each with
    the line and line number handed to the loop; a raise cuts them short. *)
Lemma dispatch_trace_prefix idx (ps : list parser) line n :
  (dispatch idx ps line n).1.2 `prefix_of`
  map (fun i => mkCall i line n) (pending idx ps).
Proof.
  revert idx; induction ps as [|p rest IH]; intros idx; [reflexivity|].
  cbn [pending]. dispatch_round p rest idx line n; cbn [map].
  - apply IH.
  - apply prefix_cons, IH.
  - apply prefix_cons, prefix_nil.
Qed.

Lemma dispatch_trace_returned idx (ps : list parser) line n :
  (dispatch idx ps line n).2 = Returned ->
  (dispatch idx ps line n).1.2 = map (fun i => mkCall i line n) (pending idx ps).
Proof.
  revert idx; induction ps as [|p rest IH]; intros idx; [reflexivity|].
  cbn [pending]. dispatch_round p rest idx line n; cbn [map]; intros H.
  - now apply IH.
  - f_equal. now apply IH.
  - discriminate.
Qed.

Lemma dispatch_trace_args idx (ps : list parser) line n c :
  c ∈ (dispatch idx ps line n).1.2 ->
  arg_line c = line /\ arg_lineno c = n /\ callee c ∈ pending idx ps.
Proof.
  intros Hc.
  destruct (dispatch_trace_prefix idx ps line n) as [k Hk].
  assert (Hin : c ∈ map (fun i => mkCall i line n) (pending idx ps)).
  { rewrite Hk. apply elem_of_app. now left. }
  apply list_elem_of_fmap in Hin as (i & -> & Hi). now cbn.
Qed.

(** A parser that is not invoked is left as it was. *)
Lemma dispatch_untouched idx (ps : list parser) line n i p :
  ps !! i = Some p ->
  idx + i ∉ map callee (dispatch idx ps line n).1.2 ->
  (dispatch idx ps line n).1.1 !! i = Some p.
Proof.
  revert idx i; induction ps as [|q rest IH]; intros idx i; [discriminate|].
  dispatch_round q rest idx line n; cbn [map callee]; intros Hi Hn.
  - destruct i as [|i]; [exact Hi|]. cbn in *. apply (IH (S idx)); [exact Hi|].
    now replace (S idx + i) with (idx + S i) by lia.
  - destruct i as [|i].
    + exfalso. apply Hn. rewrite Nat.add_0_r. apply elem_of_cons. now left.
    + cbn in *. apply (IH (S idx)); [exact Hi|].
      replace (S idx + i) with (idx + S i) by lia.
      intros H. apply Hn. apply elem_of_cons. now right.
  - destruct i as [|i].
    + exfalso. apply Hn. rewrite Nat.add_0_r. apply elem_of_cons. now left.
    + exact Hi.
Qed.

(** A parser that is invoked is left in the state its method reached. *)
Lemma dispatch_called idx (ps : list parser) line n i p :
  ps !! i = Some p ->
  idx + i ∈ map callee (dispatch idx ps line n).1.2 ->
  (dispatch idx ps line n).1.1 !! i =
  Some (mkParser (made_by p) (sp_parse_line (pstate p) line n).1).
Proof.
  revert idx i; induction ps as [|q rest IH]; intros idx i; [discriminate|].
  assert (Hfar : forall j cs, S idx + j ∈ map callee cs -> idx + S j ∈ map callee cs).
  { intros j cs H. now replace (idx + S j) with (S idx + j) by lia. }
  assert (Hlow : forall cs : list Call,
             cs `prefix_of` map (fun k => mkCall k line n) (pending (S idx) rest) ->
             idx + 0 ∉ map callee cs).
  { intros cs [k Hk] H. apply list_elem_of_fmap in H as (c & Hc & Hin).
    assert (Hc' : c ∈ map (fun k => mkCall k line n) (pending (S idx) rest)).
    { rewrite Hk. apply elem_of_app. now left. }
    apply list_elem_of_fmap in Hc' as (j & -> & Hj). cbn in Hc.
    apply pending_ge in Hj. lia. }
  dispatch_round q rest idx line n; cbn [map callee]; intros Hi Hin.
  - destruct i as [|i].
    + exfalso. revert Hin. apply Hlow, dispatch_trace_prefix.
    + cbn in *. apply (IH (S idx)); [exact Hi|].
      now replace (S idx + i) with (idx + S i) by lia.
  - destruct i as [|i].
    + cbn in *. injection Hi as <-. now rewrite Hp.
    + cbn in *. apply (IH (S idx)); [exact Hi|].
      apply elem_of_cons in Hin as [Hin|Hin]; [lia|].
      now replace (S idx + i) with (idx + S i) by lia.
  - destruct i as [|i].
    + cbn in *. injection Hi as <-. now rewrite Hp.
    + apply elem_of_cons in Hin as [Hin|Hin]; [lia | inversion Hin].
Qed.

(** The loop returns exactly when every round passes. *)
Lemma dispatch_returned_iff idx (ps : list parser) line n :
  (dispatch idx ps line n).2 = Returned <-> Forall (passes line n) ps.
Proof.
  revert idx; induction ps as [|p rest IH]; intros idx.
  - split; [constructor | reflexivity].
  - rewrite Forall_cons. unfold passes at 1.
    dispatch_round p rest idx line n; rewrite ?Hp; cbn [snd]; rewrite ?IH.
    + split; [intros H; split; [now left | exact H] | now intros [_ H]].
    + split; [intros H; split; [now right | exact H] | now intros [_ H]].
    + split; [discriminate | intros [[H|H] _]; congruence].
Qed.

(** Rounds that pass, followed by the rest of the list. *)
Lemma dispatch_app idx (pre rest : list parser) line n :
  Forall (passes line n) pre ->
  dispatch idx (pre ++ rest)%list line n =
  (((dispatch idx pre line n).1.1 ++ (dispatch (idx + length pre) rest line n).1.1)%list,
   ((dispatch idx pre line n).1.2 ++ (dispatch (idx + length pre) rest line n).1.2)%list,
   (dispatch (idx + length pre) rest line n).2).
Proof.
  revert idx; induction pre as [|p pre IH]; intros idx Hall.
  - cbn [app length]. rewrite Nat.add_0_r, dispatch_nil. cbn.
    now destruct (dispatch idx rest line n) as [[? ?] ?].
  - apply Forall_cons in Hall as [Hpass Hall]. cbn [app length].
    replace (idx + S (length pre)) with (S idx + length pre) by lia.
    unfold passes in Hpass.
    dispatch_round p (pre ++ rest)%list idx line n.
    + rewrite (dispatch_skip idx p pre line n Hc). cbn [fst snd].
      now rewrite (IH (S idx) Hall).
    + rewrite (dispatch_call idx p pre line n st Hc Hp). cbn [fst snd].
      now rewrite (IH (S idx) Hall).
    + destruct Hpass as [Hpass|Hpass]; cbn in Hpass; discriminate.
Qed.

(** A raise comes from the first pending parser whose method raises. *)
Lemma dispatch_raised_inv idx (ps : list parser) line n e :
  (dispatch idx ps line n).2 = Raised e ->
  exists pre p post st,
    ps = (pre ++ p :: post)%list /\ Forall (passes line n) pre /\
    complete p = false /\ sp_parse_line (pstate p) line n = (st, Raised e).
Proof.
  revert idx; induction ps as [|p rest IH]; intros idx; [discriminate|].
  dispatch_round p rest idx line n; intros H.
  - destruct (IH _ H) as (pre & q & post & st & -> & Hall & Hq & Hst).
    exists (p :: pre), q, post, st. repeat split; try assumption.
    constructor; [now left | exact Hall].
  - destruct (IH _ H) as (pre & q & post & st' & -> & Hall & Hq & Hst).
    exists (p :: pre), q, post, st'. repeat split; try assumption.
    constructor; [right; now rewrite Hp | exact Hall].
  - injection H as ->. exists [], p, rest, st. repeat split; try assumption.
    constructor.
Qed.

End DispatchFacts.

(** ** One call of [parse_line] *)

Section ParseLineFacts.

Context {PState Fragment Exn : Type}.
Context {API : SubParserAPI PState Fragment Exn}.

Local Abbreviation parser := (Parser PState).
Local Abbreviation builder := (Builder PState Fragment).

Lemma parse_line_parsers (self : builder) line :
  parsers (after (parse_line self line)) =
  (dispatch 0 (parsers self) (truncate line) (lineno self)).1.1.
Proof.
  unfold parse_line.
  now destruct (dispatch 0 (parsers self) (truncate line) (lineno self)) as [[? ?] ?].
Qed.

Lemma parse_line_trace (self : builder) line :
  trace (parse_line self line) =
  (dispatch 0 (parsers self) (truncate line) (lineno self)).1.2.
Proof.
  unfold parse_line.
  now destruct (dispatch 0 (parsers self) (truncate line) (lineno self)) as [[? ?] ?].
Qed.

Lemma parse_line_status (self : builder) line :
  status (parse_line self line) =
  (dispatch 0 (parsers self) (truncate line) (lineno self)).2.
Proof.
  unfold parse_line.
  now destruct (dispatch 0 (parsers self) (truncate line) (lineno self)) as [[? ?] ?].
Qed.

Lemma parse_line_lineno (self : builder) line :
  lineno (after (parse_line self line)) =
  match status (parse_line self line) with
  | Returned => (lineno self + 1)%Z
  | Raised _ => lineno self
  end.
Proof.
  unfold parse_line.
  now destruct (dispatch 0 (parsers self) (truncate line) (lineno self)) as [[? ?] ?].
Qed.

Lemma parse_line_artifact (self : builder) line :
  artifact (after (parse_line self line)) = artifact self.
Proof.
  unfold parse_line.
  now destruct (dispatch 0 (parsers self) (truncate line) (lineno self)) as [[? ?] ?].
Qed.

Lemma parse_line_name (self : builder) line :
  name (after (parse_line self line)) = name self.
Proof.
  unfold parse_line.
  now destruct (dispatch 0 (parsers self) (truncate line) (lineno self)) as [[? ?] ?].
Qed.

Lemma parse_line_made_by (self : builder) line :
  map made_by (parsers (after (parse_line self line))) = map made_by (parsers self).
Proof. rewrite parse_line_parsers. apply dispatch_made_by. Qed.

(** Every invocation gets the truncated line and the current line number,
    and goes to a parser that is pending. *)
Lemma parse_line_trace_args (self : builder) line c :
  c ∈ trace (parse_line self line) ->
  arg_line c = truncate line /\ arg_lineno c = lineno self /\
  callee c ∈ pending 0 (parsers self).
Proof. rewrite parse_line_trace. apply dispatch_trace_args. Qed.

Lemma parse_line_trace_returned (self : builder) line :
  status (parse_line self line) = Returned ->
  trace (parse_line self line) =
  map (fun i => mkCall i (truncate line) (lineno self)) (pending 0 (parsers self)).
Proof. rewrite parse_line_status, parse_line_trace. apply dispatch_trace_returned. Qed.


(** A complete parser is not invoked and keeps its state. *)
Lemma parse_line_skips_complete (self : builder) line i p :
  parsers self !! i = Some p ->
  complete p = true ->
  (i ∉ map callee (trace (parse_line self line))) /\
  parsers (after (parse_line self line)) !! i = Some p.
Proof.
  intros Hi Hc.
  assert (Hn : i ∉ map callee (trace (parse_line self line))).
  { intros H. apply list_elem_of_fmap in H as (c & -> & Hin).
    apply parse_line_trace_args in Hin as (_ & _ & Hin).
    apply pending_spec in Hin as (j & q & Hj & Hq & Hqc).
    cbn in Hj. rewrite Hj in Hi. congruence. }
  split; [exact Hn|].
  rewrite parse_line_parsers. apply dispatch_untouched; [exact Hi|].
  now rewrite <- parse_line_trace.
Qed.

(** Each parser is either left alone or, if it was pending, left in the
    state that its [parse_line] reached on the truncated line. *)
Lemma parse_line_effect (self : builder) line i p :
  parsers self !! i = Some p ->
  parsers (after (parse_line self line)) !! i = Some p \/
  (complete p = false /\
   parsers (after (parse_line self line)) !! i =
   Some (mkParser (made_by p)
                  (sp_parse_line (pstate p) (truncate line) (lineno self)).1)).
Proof.
  intros Hi.
  destruct (decide (i ∈ map callee (trace (parse_line self line)))) as [Hin|Hn].
  - right. split.
    + apply list_elem_of_fmap in Hin as (c & -> & Hin).
      apply parse_line_trace_args in Hin as (_ & _ & Hin).
      apply pending_spec in Hin as (j & q & Hj & Hq & Hqc).
      cbn in Hj. rewrite Hj in Hi. congruence.
    + rewrite parse_line_parsers. apply dispatch_called; [exact Hi|].
      now rewrite <- parse_line_trace.
  - left. rewrite parse_line_parsers. apply dispatch_untouched; [exact Hi|].
    now rewrite <- parse_line_trace.
Qed.

(** An invoked sub-parser is left in the state that its own [parse_line]
    reached on the truncated line and the current line number. *)
Lemma parse_line_called (self : builder) line i p :
  parsers self !! i = Some p ->
  i ∈ map callee (trace (parse_line self line)) ->
  parsers (after (parse_line self line)) !! i =
  Some (mkParser (made_by p)
                 (sp_parse_line (pstate p) (truncate line) (lineno self)).1).
Proof.
  intros Hi Hin. rewrite parse_line_parsers. apply dispatch_called; [exact Hi|].
  now rewrite <- parse_line_trace.
Qed.

(** When the call returns, every pending sub-parser has been invoked. *)
Lemma parse_line_returned_callees (self : builder) line :
  status (parse_line self line) = Returned ->
  map callee (trace (parse_line self line)) = pending 0 (parsers self).
Proof.
  intros Hr. rewrite (parse_line_trace_returned self line Hr).
  induction (pending 0 (parsers self)) as [|x l IH]; cbn; [reflexivity | now rewrite IH].
Qed.

Lemma parse_line_returned_pending (self : builder) line i p :
  status (parse_line self line) = Returned ->
  parsers self !! i = Some p ->
  complete p = false ->
  parsers (after (parse_line self line)) !! i =
  Some (mkParser (made_by p)
                 (sp_parse_line (pstate p) (truncate line) (lineno self)).1).
Proof.
  intros Hr Hi Hc. apply parse_line_called; [exact Hi|].
  rewrite (parse_line_returned_callees self line Hr).
  apply pending_spec. now exists i, p.
Qed.

End ParseLineFacts.

(** ** One call of [get_artifact] *)

Section GetArtifactFacts.

Context {PState Fragment Exn : Type}.
Context {API : SubParserAPI PState Fragment Exn}.

Local Abbreviation parser := (Parser PState).
Local Abbreviation builder := (Builder PState Fragment).

Lemma named_Some k (ps : list parser) p :
  named k ps = Some p -> p ∈ ps /\ name_of p = k.
Proof.
  induction ps as [|q rest IH]; cbn [named]; [discriminate|].
  destruct (named k rest) as [r|].
  - intros [= ->]. destruct (IH eq_refl) as [Hin Hk].
    split; [apply elem_of_cons; now right | exact Hk].
  - destruct (decide (name_of q = k)) as [Hq|Hq]; [|discriminate].
    intros [= ->]. split; [apply elem_of_cons; now left | exact Hq].
Qed.

Lemma named_None k (ps : list parser) :
  named k ps = None <-> k ∉ map name_of ps.
Proof.
  induction ps as [|q rest IH]; cbn [named map].
  - split; [intros _ H; inversion H | reflexivity].
  - rewrite not_elem_of_cons, <- IH.
    destruct (named k rest) as [r|].
    + split; [discriminate | intros [_ H]; discriminate].
    + destruct (decide (name_of q = k)) as [Hq|Hq].
      * split; [discriminate | intros [H _]; congruence].
      * split; [intros _; split; [congruence | reflexivity] | reflexivity].
Qed.

(** With pairwise different names, a name finds the parser that bears it. *)
Lemma named_unique (ps : list parser) i p :
  NoDup (map name_of ps) ->
  ps !! i = Some p ->
  named (name_of p) ps = Some p.
Proof.
  revert i; induction ps as [|q rest IH]; intros i Hnd Hi; [discriminate|].
  cbn [map] in Hnd. apply NoDup_cons in Hnd as [Hq Hnd]. cbn [named].
  destruct i as [|i]; cbn in Hi.
  - injection Hi as ->.
    apply named_None in Hq. rewrite Hq.
    now destruct (decide (name_of p = name_of p)).
  - now rewrite (IH i Hnd Hi).
Qed.

(** What the loop of lines 52-53 leaves under each key. *)
Lemma lookup_foldl_store (ps : list parser) (a : gmap string (PyVal Fragment)) k :
  foldl store a ps !! k =
  match named k ps with
  | Some p => Some (VFrag (fragment_of p))
  | None => a !! k
  end.
Proof.
  revert a; induction ps as [|q rest IH]; intros a; cbn [foldl named]; [reflexivity|].
  rewrite IH. destruct (named k rest) as [r|]; [reflexivity|].
  unfold store. destruct (decide (name_of q = k)) as [<-|Hq].
  - apply lookup_insert_eq.
  - now apply lookup_insert_ne.
Qed.

Lemma dom_foldl_store (ps : list parser) (a : gmap string (PyVal Fragment)) :
  dom (foldl store a ps) = dom a ∪ list_to_set (map name_of ps).
Proof.
  revert a; induction ps as [|q rest IH]; intros a; cbn [foldl map list_to_set].
  - now rewrite (right_id_L ∅ (∪)).
  - rewrite IH. unfold store. rewrite dom_insert_L.
    rewrite (assoc_L (∪)). f_equal. apply (comm_L (∪)).
Qed.

Lemma foldl_store_twice (ps : list parser) (a : gmap string (PyVal Fragment)) :
  foldl store (foldl store a ps) ps = foldl store a ps.
Proof.
  apply map_eq. intros k. rewrite lookup_foldl_store.
  destruct (named k ps) as [p|] eqn:Hk; [|reflexivity].
  rewrite lookup_foldl_store. now rewrite Hk.
Qed.

Lemma get_artifact_lookup (self : builder) k :
  (get_artifact self).2 !! k =
  match named k (parsers self) with
  | Some p => Some (VFrag (fragment_of p))
  | None => artifact self !! k
  end.
Proof. cbn. apply lookup_foldl_store. Qed.

Lemma get_artifact_twice (self : builder) :
  get_artifact (get_artifact self).1 = get_artifact self.
Proof. unfold get_artifact. cbn. now rewrite foldl_store_twice. Qed.

End GetArtifactFacts.

(** ** Sequences of calls *)

Section RunFacts.

Context {PState Fragment Exn : Type}.
Context {API : SubParserAPI PState Fragment Exn}.

Local Abbreviation parser := (Parser PState).
Local Abbreviation builder := (Builder PState Fragment).

Lemma run_cons (self : builder) op ops :
  run self (op :: ops) = run (after (step self op)) ops.
Proof. reflexivity. Qed.

Lemma step_made_by (self : builder) op :
  map made_by (parsers (after (step self op))) = map made_by (parsers self).
Proof. destruct op; [apply parse_line_made_by | reflexivity]. Qed.

Lemma step_lineno (self : builder) op :
  lineno (after (step self op)) =
  (lineno self + if is_parse_line op && returned (step self op) then 1 else 0)%Z.
Proof.
  destruct op as [line|]; cbn [step is_parse_line andb after]; [|cbn; lia].
  rewrite parse_line_lineno. unfold returned.
  destruct (status (parse_line self line)); cbn; lia.
Qed.


Lemma run_made_by (self : builder) ops :
  map made_by (parsers (run self ops)) = map made_by (parsers self).
Proof.
  revert self; induction ops as [|op ops IH]; intros self; [reflexivity|].
  rewrite run_cons, IH. apply step_made_by.
Qed.

(** The counter counts the calls of [parse_line] that returned. *)
Lemma run_lineno (self : builder) ops :
  lineno (run self ops) = (lineno self + Z.of_nat (completed (history self ops)))%Z.
Proof.
  revert self; induction ops as [|op ops IH]; intros self.
  - cbn. lia.
  - rewrite run_cons, IH, step_lineno. unfold completed. cbn [history List.filter fst snd].
    destruct (is_parse_line op && returned (step self op)); cbn [length]; lia.
Qed.

Lemma completed_le_attempted (h : list (Op * Ran PState Fragment Exn)) :
  completed h <= attempted h.
Proof.
  unfold completed, attempted. induction h as [|[op r] h IH]; cbn [List.filter fst snd]; [lia|].
  destruct (is_parse_line op); cbn [andb]; [|exact IH].
  destruct (returned r); cbn [length]; lia.
Qed.

Lemma completed_all_returned (h : list (Op * Ran PState Fragment Exn)) :
  Forall (fun x => returned x.2 = true) h -> completed h = attempted h.
Proof.
  unfold completed, attempted. induction 1 as [|[op r] h Hr _ IH]; [reflexivity|].
  cbn [List.filter fst snd] in *. rewrite Hr, andb_true_r.
  destruct (is_parse_line op); cbn [length]; now rewrite ?IH.
Qed.

Lemma attempted_lines (self : builder) lines :
  attempted (history self (map ParseLine lines)) = length lines.
Proof.
  unfold attempted. revert self; induction lines as [|l lines IH]; intros self.
  - reflexivity.
  - cbn [map history List.filter fst is_parse_line length]. now rewrite IH.
Qed.

(** Lines alone never touch [self.artifact]. *)
Lemma run_lines_artifact (self : builder) lines :
  artifact (run self (map ParseLine lines)) = artifact self.
Proof.
  revert self; induction lines as [|l lines IH]; intros self; [reflexivity|].
  cbn [map]. rewrite run_cons, IH. apply parse_line_artifact.
Qed.


End RunFacts.

(** ** The model at work *)

Example cut_at_500 : String.length (truncate (Sample.xs 600)) = 500.
Proof. vm_compute. reflexivity. Qed.

Example short_line_kept : truncate "make: *** [all] Error 2" = "make: *** [all] Error 2".
Proof. vm_compute. reflexivity. Qed.

Example marker_past_500_kept :
  truncate (String.app (Sample.xs 600) "TALOSDATA: [{}]") =
  String.app (Sample.xs 600) "TALOSDATA: [{}]".
Proof. vm_compute. reflexivity. Qed.

Example marker_is_case_sensitive :
  String.length (truncate (String.app (Sample.xs 600) "talosresult")) = 500.
Proof. vm_compute. reflexivity. Qed.

Example job_without_lines :
  (get_artifact Sample.job).2 !! "logurl" = Some (VStr Sample.log_url) /\
  (get_artifact Sample.job).2 !! name_of (new_parser TinderboxPrintParser) =
  Some (VFrag []).
Proof. repeat split; vm_compute; reflexivity. Qed.

Example raise_keeps_lineno :
  lineno (after (parse_line Sample.viewer "BOOM")) = 0%Z /\
  trace (parse_line Sample.viewer "BOOM") = [mkCall 0 "BOOM" 0] /\
  parsers (after (parse_line Sample.viewer "BOOM")) =
  [Sample.header_at [(0%Z, "BOOM")] false; Sample.steps_at [] false].
Proof. repeat split; vm_compute; reflexivity. Qed.

(** ** The builders' contract *)

Section Claims.

Context {PState Fragment Exn : Type}.
Context {API : SubParserAPI PState Fragment Exn}.

Local Abbreviation parser := (Parser PState).
Local Abbreviation builder := (Builder PState Fragment).

(** C1.  A line that contains neither "TALOSDATA" nor "TalosResult" is handed
    to the sub-parsers as its first 500 characters.  Every sub-parser that
    [parse_line] invokes is left in the state that its own [parse_line]
    reaches on that prefix and the current line number, and when the call
    returns this is so for every pending sub-parser; the invocations made
    carry the prefix, and on return they are exactly those of the pending
    sub-parsers.  The prefix has [min 500 (len line)] characters and is the
    line itself when the line has at most 500. *)
Theorem C1_unmarked_line_is_cut (self : builder) (line : string) :
  PyStr.contains "TALOSDATA" line = false ->
  PyStr.contains "TalosResult" line = false ->
  (forall i p,
      parsers self !! i = Some p ->
      i ∈ map callee (trace (parse_line self line)) ->
      parsers (after (parse_line self line)) !! i =
      Some (mkParser (made_by p)
                     (sp_parse_line (pstate p) (PyStr.slice_to 500 line) (lineno self)).1)) /\
  (status (parse_line self line) = Returned ->
   forall i p,
     parsers self !! i = Some p ->
     complete p = false ->
     parsers (after (parse_line self line)) !! i =
     Some (mkParser (made_by p)
                    (sp_parse_line (pstate p) (PyStr.slice_to 500 line) (lineno self)).1)) /\
  (forall c, c ∈ trace (parse_line self line) ->
             arg_line c = PyStr.slice_to 500 line) /\
  (status (parse_line self line) = Returned ->
   trace (parse_line self line) =
   map (fun i => mkCall i (PyStr.slice_to 500 line) (lineno self))
       (pending 0 (parsers self))) /\
  String.length (PyStr.slice_to 500 line) = Nat.min 500 (String.length line) /\
  PyStr.startswith (PyStr.slice_to 500 line) line = true /\
  (String.length line <= 500 -> PyStr.slice_to 500 line = line).
Proof.
  intros H1 H2.
  pose proof (truncate_unmarked line H1 H2) as Ht.
  change MAX_LINE_LENGTH with 500 in Ht.
  split; [|split; [|split; [|split; [|split; [|split]]]]].
  - intros i p Hi Hin. rewrite <- Ht. now apply parse_line_called.
  - intros Hr i p Hi Hc. rewrite <- Ht. now apply parse_line_returned_pending.
  - intros c Hc. apply parse_line_trace_args in Hc as (Hl & _). now rewrite Hl, Ht.
  - intros Hr. rewrite (parse_line_trace_returned self line Hr). now rewrite Ht.
  - apply PyStrFacts.slice_to_length.
  - apply PyStrFacts.slice_to_prefix.
  - apply PyStrFacts.slice_to_all.
Qed.

(** C2.  A line with "TALOSDATA" or "TalosResult" anywhere in it, whatever
    stands before and after the marker and however long the line is, is
    handed to the sub-parsers as it came in.  Every sub-parser that
    [parse_line] invokes is left in the state that its own [parse_line]
    reaches on the whole line and the current line number, and when the
    call returns this is so for every pending sub-parser; the invocations
    made carry the whole line, and on return they are exactly those of the
    pending sub-parsers. *)
Theorem C2_marked_line_is_kept (self : builder) (pre marker post : string) :
  marker = "TALOSDATA" \/ marker = "TalosResult" ->
  let line := String.app pre (String.app marker post) in
  (forall i p,
      parsers self !! i = Some p ->
      i ∈ map callee (trace (parse_line self line)) ->
      parsers (after (parse_line self line)) !! i =
      Some (mkParser (made_by p) (sp_parse_line (pstate p) line (lineno self)).1)) /\
  (status (parse_line self line) = Returned ->
   forall i p,
     parsers self !! i = Some p ->
     complete p = false ->
     parsers (after (parse_line self line)) !! i =
     Some (mkParser (made_by p) (sp_parse_line (pstate p) line (lineno self)).1)) /\
  (forall c, c ∈ trace (parse_line self line) -> arg_line c = line) /\
  (status (parse_line self line) = Returned ->
   trace (parse_line self line) =
   map (fun i => mkCall i line (lineno self)) (pending 0 (parsers self))).
Proof.
  intros Hm line.
  assert (Ht : truncate line = line).
  { apply truncate_marked.
    destruct Hm as [->| ->]; [left | right];
      apply PyStrFacts.contains_spec; now exists pre, post. }
  split; [|split; [|split]].
  - intros i p Hi Hin. rewrite <- Ht at 2. now apply parse_line_called.
  - intros Hr i p Hi Hc. rewrite <- Ht at 2. now apply parse_line_returned_pending.
  - intros c Hc. apply parse_line_trace_args in Hc as (Hl & _). now rewrite Hl.
  - intros Hr. rewrite (parse_line_trace_returned self line Hr). now rewrite Ht.
Qed.

(** C3 (amended).  [check_errors] is an argument of a sub-parser constructor
    only in [BuildbotLogViewArtifactBuilder], which hands it unchanged to
    [StepParser]; its [HeaderParser] takes no argument.  The constructor of
    [BuildbotJobArtifactBuilder] has no such parameter, and the
    [TinderboxPrintParser] and [TalosParser] of the other two builders are
    constructed without arguments. *)
Theorem C3_check_errors_goes_to_StepParser (url : option string) (check_errors : bool) :
  parsers (construct LogView url check_errors) =
  [new_parser HeaderParser; new_parser (StepParser check_errors)] /\
  forwarded_flags (construct LogView url check_errors) = [check_errors] /\
  accepts_check_errors JobInfo = false /\
  parsers (construct JobInfo url check_errors) = [new_parser TinderboxPrintParser] /\
  parsers (construct PerfData url check_errors) = [new_parser TalosParser].
Proof. repeat split. Qed.

(** C4 (amended).  A fresh builder of any variant has line number 0, and
    after any run of calls the line number is the number of [parse_line]
    calls of the run that returned, whatever the lines and whatever the
    sub-parsers have completed; when every call returned it is the number
    of [parse_line] calls.  A [parse_line] that returns adds exactly 1, one
    that raises adds nothing, [get_artifact] adds nothing, and no call ever
    lowers the counter. *)
Theorem C4_lineno_counts_calls (v : Variant) (url : option string)
        (check_errors : bool) (ops : list Op) :
  lineno (construct v url check_errors) = 0%Z /\
  lineno (run (construct v url check_errors) ops) =
  Z.of_nat (completed (history (construct v url check_errors) ops)) /\
  completed (history (construct v url check_errors) ops) <=
  attempted (history (construct v url check_errors) ops) /\
  (Forall (fun x => returned x.2 = true) (history (construct v url check_errors) ops) ->
   lineno (run (construct v url check_errors) ops) =
   Z.of_nat (attempted (history (construct v url check_errors) ops))) /\
  (forall lines,
      ops = map ParseLine lines ->
      Forall (fun x => returned x.2 = true) (history (construct v url check_errors) ops) ->
      lineno (run (construct v url check_errors) ops) = Z.of_nat (length lines)) /\
  (forall (self : builder) line,
      lineno (after (parse_line self line)) =
      match status (parse_line self line) with
      | Returned => (lineno self + 1)%Z
      | Raised _ => lineno self
      end) /\
  (forall self : builder, lineno (get_artifact self).1 = lineno self) /\
  (forall (self : builder) op, (lineno self <= lineno (after (step self op)))%Z).
Proof.
  assert (H0 : lineno (construct v url check_errors) = 0%Z) by now destruct v.
  assert (Hrun : lineno (run (construct v url check_errors) ops) =
                 Z.of_nat (completed (history (construct v url check_errors) ops))).
  { rewrite run_lineno, H0. lia. }
  assert (Hall : Forall (fun x => returned x.2 = true)
                        (history (construct v url check_errors) ops) ->
                 lineno (run (construct v url check_errors) ops) =
                 Z.of_nat (attempted (history (construct v url check_errors) ops))).
  { intros Hall. now rewrite Hrun, (completed_all_returned _ Hall). }
  split; [exact H0|]. split; [exact Hrun|].
  split; [apply completed_le_attempted|]. split; [exact Hall|].
  split; [|split; [|split]].
  - intros lines Hops Hret. rewrite (Hall Hret). subst ops. now rewrite attempted_lines.
  - intros self line. apply parse_line_lineno.
  - reflexivity.
  - intros self op. rewrite step_lineno.
    destruct (is_parse_line op && returned (step self op)); lia.
Qed.


(** C6.  After any sequence of lines, the dict returned by [get_artifact]
    has the keys "logurl" and the names of the sub-parsers, and no other.
    Under a name stands the artifact of the sub-parser so named (of the last
    one in the list, should two share a name), and under "logurl", unless a
    sub-parser goes by that name, the url given to the constructor.  The
    dict is [self.artifact] of the builder. *)
Theorem C6_artifact_keys (v : Variant) (url : option string) (check_errors : bool)
        (lines : list string) :
  let b := run (construct v url check_errors) (map ParseLine lines) in
  let a := (get_artifact b).2 in
  dom a = {[ "logurl" ]} ∪ list_to_set (map name_of (parsers b)) /\
  map made_by (parsers b) = map made_by (parsers (construct v url check_errors)) /\
  (forall k, a !! k = match named k (parsers b) with
                      | Some p => Some (VFrag (fragment_of p))
                      | None => if decide (k = "logurl") then Some (of_url url) else None
                      end) /\
  (NoDup (map name_of (parsers b)) ->
   forall i p, parsers b !! i = Some p -> a !! name_of p = Some (VFrag (fragment_of p))) /\
  ("logurl" ∉ map name_of (parsers b) -> a !! "logurl" = Some (of_url url)) /\
  artifact (get_artifact b).1 = a.
Proof.
  intros b a.
  assert (Hart : artifact b = {[ "logurl" := of_url url ]}).
  { unfold b. rewrite run_lines_artifact. now destruct v. }
  assert (Hlook : forall k, a !! k = match named k (parsers b) with
                      | Some p => Some (VFrag (fragment_of p))
                      | None => if decide (k = "logurl") then Some (of_url url) else None
                      end).
  { intros k. unfold a. rewrite get_artifact_lookup, Hart.
    destruct (named k (parsers b)); [reflexivity|].
    destruct (decide (k = "logurl")) as [->|Hk].
    - apply lookup_singleton_eq.
    - apply lookup_singleton_ne. congruence. }
  split; [|split; [|split; [|split; [|split]]]].
  - unfold a, get_artifact. cbn [snd]. rewrite dom_foldl_store, Hart.
    now rewrite dom_singleton_L.
  - apply run_made_by.
  - exact Hlook.
  - intros Hnd i p Hi. rewrite Hlook. now rewrite (named_unique _ i p Hnd Hi).
  - intros Hn. rewrite Hlook. apply named_None in Hn. rewrite Hn.
    now destruct (decide ("logurl" = "logurl")).
  - reflexivity.
Qed.

(** C7.  The three subclasses set [parsers] and [name] and nothing else:
    [TinderboxPrintParser] alone and "Job Info"; [HeaderParser] then
    [StepParser] and "Structured Log"; [TalosParser] alone and "talos_data".
    The sub-parsers are freshly constructed, and the dict and the counter
    are those of the base constructor.  ([parse_line] and [get_artifact] are
    defined once, on the base class.) *)
Theorem C7_variants_wiring (url : option string) (check_errors : bool) :
  (map made_by (parsers (construct JobInfo url check_errors)) = [TinderboxPrintParser] /\
   name (construct JobInfo url check_errors) = "Job Info") /\
  (map made_by (parsers (construct LogView url check_errors)) =
   [HeaderParser; StepParser check_errors] /\
   name (construct LogView url check_errors) = "Structured Log") /\
  (map made_by (parsers (construct PerfData url check_errors)) = [TalosParser] /\
   name (construct PerfData url check_errors) = "talos_data") /\
  (forall v,
      map pstate (parsers (construct v url check_errors)) =
      map sp_new (map made_by (parsers (construct v url check_errors))) /\
      artifact (construct v url check_errors) = artifact (ArtifactBuilderBase url : builder) /\
      artifact (construct v url check_errors) = {[ "logurl" := of_url url ]} /\
      lineno (construct v url check_errors) = lineno (ArtifactBuilderBase url : builder)).
Proof.
  split; [|split; [|split]]; try (split; reflexivity).
  intros v. destruct v; repeat split.
Qed.

(** C8.  A second [get_artifact] right after a first returns an equal dict
    and leaves the builder as the first left it; [get_artifact] changes
    neither the sub-parsers nor the counter nor the name.  After lines have
    been processed in between, the second dict holds, under the name of each
    sub-parser, the artifact of that sub-parser as it is then. *)
Theorem C8_get_artifact_idempotent (self : builder) :
  (get_artifact (get_artifact self).1).2 = (get_artifact self).2 /\
  (get_artifact (get_artifact self).1).1 = (get_artifact self).1 /\
  parsers (get_artifact self).1 = parsers self /\
  lineno (get_artifact self).1 = lineno self /\
  name (get_artifact self).1 = name self /\
  (forall lines k p,
      named k (parsers (run (get_artifact self).1 (map ParseLine lines))) = Some p ->
      (get_artifact (run (get_artifact self).1 (map ParseLine lines))).2 !! k =
      Some (VFrag (fragment_of p))) /\
  (forall lines i p,
      NoDup (map name_of (parsers (run (get_artifact self).1 (map ParseLine lines)))) ->
      parsers (run (get_artifact self).1 (map ParseLine lines)) !! i = Some p ->
      (get_artifact (run (get_artifact self).1 (map ParseLine lines))).2 !! name_of p =
      Some (VFrag (fragment_of p))).
Proof.
  split; [|split; [|split; [|split; [|split; [|split]]]]]; try reflexivity.
  - now rewrite get_artifact_twice.
  - now rewrite get_artifact_twice.
  - intros lines k p Hk. rewrite get_artifact_lookup. now rewrite Hk.
  - intros lines i p Hnd Hi. rewrite get_artifact_lookup.
    now rewrite (named_unique _ i p Hnd Hi).
Qed.

(** C9.  [parse_line] returns nothing (it returns or raises) and leaves
    [self.artifact], with its "logurl" entry, and [self.name] as they are;
    [self.parsers] keeps its length and its elements.  A sub-parser that is
    complete keeps its state; one that is pending keeps it or is left in the
    state its own [parse_line] reached on the truncated line.  The counter
    goes up by 1 when the call returns and stays when it raises. *)
Theorem C9_parse_line_frame (self : builder) (line : string) :
  artifact (after (parse_line self line)) = artifact self /\
  artifact (after (parse_line self line)) !! "logurl" = artifact self !! "logurl" /\
  name (after (parse_line self line)) = name self /\
  map made_by (parsers (after (parse_line self line))) = map made_by (parsers self) /\
  length (parsers (after (parse_line self line))) = length (parsers self) /\
  (forall i p,
      parsers self !! i = Some p ->
      parsers (after (parse_line self line)) !! i = Some p \/
      (complete p = false /\
       parsers (after (parse_line self line)) !! i =
       Some (mkParser (made_by p)
                      (sp_parse_line (pstate p) (truncate line) (lineno self)).1))) /\
  (forall i p,
      parsers self !! i = Some p -> complete p = true ->
      parsers (after (parse_line self line)) !! i = Some p) /\
  lineno (after (parse_line self line)) =
  match status (parse_line self line) with
  | Returned => (lineno self + 1)%Z
  | Raised _ => lineno self
  end.
Proof.
  split; [|split; [|split; [|split; [|split; [|split; [|split]]]]]].
  - apply parse_line_artifact.
  - now rewrite parse_line_artifact.
  - apply parse_line_name.
  - apply parse_line_made_by.
  - rewrite parse_line_parsers. apply dispatch_length.
  - intros i p. apply parse_line_effect.
  - intros i p Hi Hc. now apply parse_line_skips_complete.
  - apply parse_line_lineno.
Qed.

(** C10.  When, in a call of [parse_line], the rounds for the sub-parsers
    [pre] pass and the next sub-parser [p] is pending and raises [e], the
    call raises [e]; the counter stays; [p] is the last one invoked and the
    sub-parsers after it are left untouched.  Every raise of [parse_line]
    arises so.  Hence after any run of calls the counter has grown by the
    number of [parse_line] calls that returned, which is at most the number
    attempted. *)
Theorem C10_raise_stops_the_call (self : builder) (line : string) :
  (forall pre p post st e,
      parsers self = (pre ++ p :: post)%list ->
      Forall (passes (truncate line) (lineno self)) pre ->
      complete p = false ->
      sp_parse_line (pstate p) (truncate line) (lineno self) = (st, Raised e) ->
      status (parse_line self line) = Raised e /\
      lineno (after (parse_line self line)) = lineno self /\
      parsers (after (parse_line self line)) =
      ((dispatch 0 pre (truncate line) (lineno self)).1.1
         ++ mkParser (made_by p) st :: post)%list /\
      trace (parse_line self line) =
      ((dispatch 0 pre (truncate line) (lineno self)).1.2
         ++ [mkCall (length pre) (truncate line) (lineno self)])%list /\
      (forall c, c ∈ trace (parse_line self line) -> callee c <= length pre)) /\
  (forall e,
      status (parse_line self line) = Raised e ->
      lineno (after (parse_line self line)) = lineno self /\
      exists pre p post st,
        parsers self = (pre ++ p :: post)%list /\
        Forall (passes (truncate line) (lineno self)) pre /\
        complete p = false /\
        sp_parse_line (pstate p) (truncate line) (lineno self) = (st, Raised e)) /\
  (forall ops,
      lineno (run self ops) = (lineno self + Z.of_nat (completed (history self ops)))%Z /\
      completed (history self ops) <= attempted (history self ops)).
Proof.
  split; [|split].
  - intros pre p post st e Hps Hpre Hc Hp.
    assert (Hd : dispatch 0 (parsers self) (truncate line) (lineno self) =
                 (((dispatch 0 pre (truncate line) (lineno self)).1.1
                     ++ mkParser (made_by p) st :: post)%list,
                  ((dispatch 0 pre (truncate line) (lineno self)).1.2
                     ++ [mkCall (length pre) (truncate line) (lineno self)])%list,
                  Raised e)).
    { rewrite Hps, (dispatch_app 0 pre (p :: post) _ _ Hpre).
      now rewrite (dispatch_raise _ p post _ _ st e Hc Hp). }
    assert (Hs : status (parse_line self line) = Raised e).
    { now rewrite parse_line_status, Hd. }
    split; [exact Hs|]. split; [|split; [|split]].
    + rewrite parse_line_lineno. now rewrite Hs.
    + now rewrite parse_line_parsers, Hd.
    + now rewrite parse_line_trace, Hd.
    + intros c. rewrite parse_line_trace, Hd. cbn [fst snd].
      rewrite elem_of_app, list_elem_of_singleton. intros [Hin| ->]; [|cbn; lia].
      apply dispatch_trace_args in Hin as (_ & _ & Hin).
      apply pending_spec in Hin as (i & q & -> & Hq & _).
      apply lookup_lt_Some in Hq. lia.
  - intros e Hs. split.
    + rewrite parse_line_lineno. now rewrite Hs.
    + rewrite parse_line_status in Hs. now apply dispatch_raised_inv in Hs.
  - intros ops. split; [apply run_lineno | apply completed_le_attempted].
Qed.

End Claims.

(** *** Runs of the sample implementation *)

Lemma C1_witness :
  PyStr.contains "TALOSDATA" (Sample.xs 600) = false /\
  PyStr.contains "TalosResult" (Sample.xs 600) = false /\
  parsers (after (parse_line Sample.viewer (Sample.xs 600))) !! 1 =
  Some (Sample.steps_at [(0%Z, Sample.xs 500)] false) /\
  trace (parse_line Sample.viewer (Sample.xs 600)) =
  [mkCall 0 (Sample.xs 500) 0; mkCall 1 (Sample.xs 500) 0].
Proof.
  assert (H1 : PyStr.contains "TALOSDATA" (Sample.xs 600) = false)
    by (vm_compute; reflexivity).
  assert (H2 : PyStr.contains "TalosResult" (Sample.xs 600) = false)
    by (vm_compute; reflexivity).
  assert (Hr : status (parse_line Sample.viewer (Sample.xs 600)) = Returned)
    by (vm_compute; reflexivity).
  split; [exact H1|]. split; [exact H2|].
  destruct (C1_unmarked_line_is_cut Sample.viewer (Sample.xs 600) H1 H2)
    as (_ & Hstate & _ & Htrace & _).
  split.
  - rewrite (Hstate Hr 1 (Sample.steps_at [] false) eq_refl eq_refl).
    vm_compute. reflexivity.
  - rewrite (Htrace Hr). vm_compute. reflexivity.
Defined.

Lemma C2_witness :
  parsers (after (parse_line Sample.viewer (String.app (Sample.xs 600) "TalosResult"))) !! 1 =
  Some (Sample.steps_at [(0%Z, String.app (Sample.xs 600) "TalosResult")] false) /\
  trace (parse_line Sample.viewer (String.app (Sample.xs 600) "TalosResult")) =
  [mkCall 0 (String.app (Sample.xs 600) "TalosResult") 0;
   mkCall 1 (String.app (Sample.xs 600) "TalosResult") 0].
Proof.
  pose proof (C2_marked_line_is_kept Sample.viewer (Sample.xs 600) "TalosResult" ""
                                     (or_intror eq_refl)) as H.
  cbv zeta in H. destruct H as (_ & Hstate & _ & Htrace).
  assert (Hr : status (parse_line Sample.viewer
                         (String.app (Sample.xs 600) (String.app "TalosResult" ""))) =
               Returned)
    by (vm_compute; reflexivity).
  specialize (Hstate Hr 1 (Sample.steps_at [] false) eq_refl eq_refl).
  specialize (Htrace Hr).
  split.
  - vm_compute in Hstate. vm_compute. exact Hstate.
  - vm_compute in Htrace. vm_compute. exact Htrace.
Defined.

Lemma C3_counterexample :
  accepts_check_errors PerfData = true /\
  forwarded_flags (construct (API := Sample.api) PerfData (Some Sample.log_url) false) = [] /\
  construct (API := Sample.api) PerfData (Some Sample.log_url) false =
  construct (API := Sample.api) PerfData (Some Sample.log_url) true.
Proof. repeat split. Qed.

Lemma C4_counterexample :
  attempted (history Sample.viewer [ParseLine "BOOM"]) = 1 /\
  lineno (run Sample.viewer [ParseLine "BOOM"]) = 0%Z /\
  attempted (history Sample.viewer [ParseLine "a"; ParseLine "BOOM"; ParseLine "BOOM"]) = 3 /\
  lineno (run Sample.viewer [ParseLine "a"; ParseLine "BOOM"; ParseLine "BOOM"]) = 1%Z.
Proof. repeat split; vm_compute; reflexivity. Qed.

Lemma C4_witness :
  Forall (fun x => returned x.2 = true) (history Sample.viewer Sample.session) /\
  lineno (run Sample.viewer Sample.session) = 4%Z /\
  lineno (run Sample.viewer [ParseLine "a"; ParseLine "BOOM"; ParseLine "b"]) = 2%Z.
Proof.
  assert (H : Forall (fun x => returned x.2 = true)
                     (history Sample.viewer Sample.session)).
  { repeat (constructor; [vm_compute; reflexivity|]). constructor. }
  split; [exact H|]. split.
  - destruct (C4_lineno_counts_calls LogView (Some Sample.log_url) true Sample.session)
      as (_ & _ & _ & Hn & _).
    unfold Sample.viewer. rewrite (Hn H). vm_compute. reflexivity.
  - destruct (C4_lineno_counts_calls (API := Sample.api) LogView (Some Sample.log_url) true
                [ParseLine "a"; ParseLine "BOOM"; ParseLine "b"])
      as (_ & Hn & _).
    unfold Sample.viewer. rewrite Hn. vm_compute. reflexivity.
Defined.



Lemma C6_witness :
  NoDup (map name_of (parsers (run Sample.viewer (map ParseLine ["a"; "HEADER-END"; "b"])))) /\
  ("logurl" ∉ map name_of (parsers (run Sample.viewer (map ParseLine ["a"; "HEADER-END"; "b"])))) /\
  (get_artifact (run Sample.viewer (map ParseLine ["a"; "HEADER-END"; "b"]))).2 !! "header" =
  Some (VFrag [(0%Z, "a"); (1%Z, "HEADER-END")]) /\
  (get_artifact (run Sample.viewer (map ParseLine ["a"; "HEADER-END"; "b"]))).2 !! "logurl" =
  Some (VStr Sample.log_url) /\
  dom (get_artifact (run Sample.viewer (map ParseLine ["a"; "HEADER-END"; "b"]))).2 =
  {[ "logurl" ]} ∪ list_to_set ["header"; "step_data"].
Proof.
  pose proof (C6_artifact_keys (API := Sample.api) LogView (Some Sample.log_url) true
                               ["a"; "HEADER-END"; "b"]) as H.
  cbv zeta in H. destruct H as (Hdom & _ & _ & Hown & Hurl & _).
  assert (Hnd : NoDup (map name_of (parsers (run Sample.viewer
                         (map ParseLine ["a"; "HEADER-END"; "b"]))))).
  { apply (bool_decide_unpack _). vm_compute. exact I. }
  assert (Hn : "logurl" ∉ map name_of (parsers (run Sample.viewer
                         (map ParseLine ["a"; "HEADER-END"; "b"])))).
  { apply (bool_decide_unpack _). vm_compute. exact I. }
  split; [exact Hnd|]. split; [exact Hn|]. split; [|split].
  - exact (Hown Hnd 0 (Sample.header_at [(0%Z, "a"); (1%Z, "HEADER-END")] true) eq_refl).
  - exact (Hurl Hn).
  - exact Hdom.
Defined.

Lemma C8_witness :
  (get_artifact (get_artifact Sample.viewer_header_done).1).2 =
  (get_artifact Sample.viewer_header_done).2 /\
  (get_artifact Sample.viewer_header_done).2 !! "step_data" =
  Some (VFrag [(0%Z, "HEADER-END")]) /\
  (get_artifact (run (get_artifact Sample.viewer_header_done).1
                     (map ParseLine ["x"; "STEP-END"]))).2 !! "step_data" =
  Some (VFrag [(0%Z, "HEADER-END"); (1%Z, "x"); (2%Z, "STEP-END")]).
Proof.
  destruct (C8_get_artifact_idempotent Sample.viewer_header_done)
    as (Hsame & _ & _ & _ & _ & _ & Hlater).
  split; [exact Hsame|]. split; [vm_compute; reflexivity|].
  refine (Hlater ["x"; "STEP-END"] 1
            (Sample.steps_at [(0%Z, "HEADER-END"); (1%Z, "x"); (2%Z, "STEP-END")] true)
            _ eq_refl).
  apply (bool_decide_unpack _). vm_compute. exact I.
Defined.

Lemma C9_witness :
  parsers Sample.viewer_steps_done !! 1 = Some (Sample.steps_at [(0%Z, "STEP-END")] true) /\
  parsers (after (parse_line Sample.viewer_steps_done (Sample.xs 600))) !! 1 =
  Some (Sample.steps_at [(0%Z, "STEP-END")] true) /\
  artifact (after (parse_line Sample.viewer_steps_done (Sample.xs 600))) !! "logurl" =
  Some (VStr Sample.log_url) /\
  lineno (after (parse_line Sample.viewer_steps_done (Sample.xs 600))) = 2%Z.
Proof.
  destruct (C9_parse_line_frame Sample.viewer_steps_done (Sample.xs 600))
    as (_ & Hurl & _ & _ & _ & _ & Hkeep & Hn).
  assert (H1 : parsers Sample.viewer_steps_done !! 1 =
               Some (Sample.steps_at [(0%Z, "STEP-END")] true))
    by (vm_compute; reflexivity).
  split; [exact H1|]. split; [|split].
  - exact (Hkeep 1 _ H1 eq_refl).
  - rewrite Hurl. vm_compute. reflexivity.
  - rewrite Hn. vm_compute. reflexivity.
Defined.

Lemma C10_witness :
  status (parse_line Sample.viewer_header_done "BOOM") = Raised (Sample.ParseError 1) /\
  lineno (after (parse_line Sample.viewer_header_done "BOOM")) = 1%Z /\
  trace (parse_line Sample.viewer_header_done "BOOM") = [mkCall 1 "BOOM" 1] /\
  lineno (run Sample.viewer_header_done [ParseLine "BOOM"; ParseLine "next"; ParseLine "BOOM"]) =
  2%Z.
Proof.
  destruct (C10_raise_stops_the_call Sample.viewer_header_done "BOOM")
    as (Hraise & _ & Hcount).
  destruct (Hraise [Sample.header_at [(0%Z, "HEADER-END")] true]
                   (Sample.steps_at [(0%Z, "HEADER-END")] false)
                   []
                   (Sample.mkState (StepParser true) [(0%Z, "HEADER-END"); (1%Z, "BOOM")] false)
                   (Sample.ParseError 1))
    as (Hs & Hn & _ & Ht & _).
  - vm_compute. reflexivity.
  - constructor; [left; reflexivity | constructor].
  - reflexivity.
  - vm_compute. reflexivity.
  - split; [exact Hs|]. split; [|split].
    + rewrite Hn. vm_compute. reflexivity.
    + rewrite Ht. vm_compute. reflexivity.
    + rewrite (proj1 (Hcount [ParseLine "BOOM"; ParseLine "next"; ParseLine "BOOM"])).
      vm_compute. reflexivity.
Defined.

(** * Further properties of the builders *)

(** ** More on strings *)

Lemma str_app_nil_l s : String.app EmptyString s = s.
Proof. reflexivity. Qed.

Lemma str_app_assoc a b c :
  String.app (String.app a b) c = String.app a (String.app b c).
Proof.
  induction a as [|x a IH].
  - now rewrite !str_app_nil_l.
  - rewrite !PyStrFacts.app_String. now rewrite IH.
Qed.

Lemma startswith_refl s : PyStr.startswith s s = true.
Proof.
  induction s as [|c s IH]; [reflexivity|].
  cbn [PyStr.startswith]. now rewrite Ascii.eqb_refl.
Qed.

(** What occurs in a prefix of a string occurs in the string. *)
Lemma contains_slice_to needle n s :
  PyStr.contains needle (PyStr.slice_to n s) = true ->
  PyStr.contains needle s = true.
Proof.
  rewrite !PyStrFacts.contains_spec. intros (pre & post & H).
  exists pre, (String.app post (PyStr.slice_from n s)).
  rewrite (PyStrFacts.slice_split n s) at 1.
  now rewrite H, !str_app_assoc.
Qed.

Lemma contains_truncate needle line :
  needle = "TALOSDATA" \/ needle = "TalosResult" ->
  PyStr.contains needle (truncate line) = PyStr.contains needle line.
Proof.
  intros Hn. unfold truncate.
  destruct (PyStr.contains "TALOSDATA" line) eqn:H1; [reflexivity|].
  destruct (PyStr.contains "TalosResult" line) eqn:H2; [reflexivity|].
  cbn [negb andb].
  assert (Hline : PyStr.contains needle line = false)
    by (destruct Hn as [->| ->]; assumption).
  rewrite Hline.
  destruct (PyStr.contains needle (PyStr.slice_to MAX_LINE_LENGTH line)) eqn:Hs;
    [|reflexivity].
  apply contains_slice_to in Hs. congruence.
Qed.

Lemma truncate_length (line : string) :
  String.length (truncate line) <= String.length line.
Proof.
  unfold truncate.
  destruct (negb (PyStr.contains "TALOSDATA" line)
            && negb (PyStr.contains "TalosResult" line)); [|lia].
  rewrite PyStrFacts.slice_to_length. lia.
Qed.

Lemma truncate_twice (line : string) : truncate (truncate line) = truncate line.
Proof.
  unfold truncate at 1.
  rewrite !contains_truncate by (now left + now right).
  unfold truncate.
  destruct (negb (PyStr.contains "TALOSDATA" line)
            && negb (PyStr.contains "TalosResult" line)); [|reflexivity].
  apply PyStrFacts.slice_to_all. rewrite PyStrFacts.slice_to_length. lia.
Qed.

Section MoreClaims.

Context {PState Fragment Exn : Type}.
Context {API : SubParserAPI PState Fragment Exn}.

Local Abbreviation parser := (Parser PState).
Local Abbreviation builder := (Builder PState Fragment).

(** X1.  The line handed on is always a prefix of the line that came in and
    never longer than it, and it is the line itself exactly when the line
    carries one of the two markers or has at most 500 characters: only an
    unmarked line of 501 characters or more is changed. *)
Theorem X1_truncate_changes_only_long_unmarked (line : string) :
  PyStr.startswith (truncate line) line = true /\
  String.length (truncate line) <= String.length line /\
  (truncate line = line <->
   PyStr.contains "TALOSDATA" line = true \/
   PyStr.contains "TalosResult" line = true \/
   String.length line <= 500).
Proof.
  split; [|split].
  - unfold truncate.
    destruct (negb (PyStr.contains "TALOSDATA" line)
              && negb (PyStr.contains "TalosResult" line)).
    + apply PyStrFacts.slice_to_prefix.
    + apply startswith_refl.
  - apply truncate_length.
  - destruct (PyStr.contains "TALOSDATA" line) eqn:H1.
    { split; [now left | intros _; apply truncate_marked; now left]. }
    destruct (PyStr.contains "TalosResult" line) eqn:H2.
    { split; [right; now left | intros _; apply truncate_marked; now right]. }
    rewrite (truncate_unmarked line H1 H2). change MAX_LINE_LENGTH with 500. split.
    + intros H. right; right.
      pose proof (PyStrFacts.slice_to_length 500 line) as Hl. rewrite H in Hl. lia.
    + intros [H|[H|H]]; try discriminate. now apply PyStrFacts.slice_to_all.
Qed.

(** X2.  Cutting a line neither removes nor creates a marker, and whatever
    line a sub-parser is invoked with either has at most 500 characters or
    carries one of the two markers. *)
Theorem X2_long_lines_carry_a_marker (self : builder) (line : string) :
  PyStr.contains "TALOSDATA" (truncate line) = PyStr.contains "TALOSDATA" line /\
  PyStr.contains "TalosResult" (truncate line) = PyStr.contains "TalosResult" line /\
  (forall c, c ∈ trace (parse_line self line) ->
             String.length (arg_line c) <= 500 \/
             PyStr.contains "TALOSDATA" (arg_line c) = true \/
             PyStr.contains "TalosResult" (arg_line c) = true).
Proof.
  assert (H1 := contains_truncate "TALOSDATA" line (or_introl eq_refl)).
  assert (H2 := contains_truncate "TalosResult" line (or_intror eq_refl)).
  split; [exact H1|]. split; [exact H2|].
  intros c Hc. apply parse_line_trace_args in Hc as (-> & _).
  rewrite H1, H2. unfold truncate.
  destruct (PyStr.contains "TALOSDATA" line); [right; now left|].
  destruct (PyStr.contains "TalosResult" line); [right; now right|].
  left. cbn [negb andb]. rewrite PyStrFacts.slice_to_length.
  change MAX_LINE_LENGTH with 500. lia.
Qed.

(** X3.  Cutting is idempotent, so a caller that has already cut a line the
    same way changes nothing: [parse_line] does the same on the cut line as
    on the line. *)
Theorem X3_truncate_idempotent (self : builder) (line : string) :
  truncate (truncate line) = truncate line /\
  parse_line self (truncate line) = parse_line self line.
Proof.
  split; [apply truncate_twice|].
  unfold parse_line. now rewrite truncate_twice.
Qed.

(** *** Nothing left to dispatch *)

Lemma dispatch_all_complete idx (ps : list parser) line n :
  Forall (fun p => complete p = true) ps ->
  dispatch idx ps line n = (ps, [], Returned).
Proof.
  revert idx; induction ps as [|p rest IH]; intros idx Hall; [reflexivity|].
  apply Forall_cons in Hall as [Hp Hall].
  rewrite (dispatch_skip idx p rest line n Hp). now rewrite (IH (S idx) Hall).
Qed.

Lemma parse_line_all_complete (self : builder) line :
  Forall (fun p => complete p = true) (parsers self) ->
  parse_line self line =
  {| after := mkBuilder (artifact self) (lineno self + 1) (parsers self) (name self);
     trace := [];
     status := Returned |}.
Proof.
  intros Hall. unfold parse_line. now rewrite (dispatch_all_complete 0 _ _ _ Hall).
Qed.

(** X4.  When every sub-parser is complete, and so also when there is none,
    [parse_line] cannot raise and invokes nothing: all it does is add 1 to
    the counter.  The builder then stays so over any number of lines. *)
Theorem X4_all_complete_only_counts (self : builder) (lines : list string) :
  Forall (fun p => complete p = true) (parsers self) ->
  (forall line,
      parse_line self line =
      {| after := mkBuilder (artifact self) (lineno self + 1) (parsers self) (name self);
         trace := [];
         status := Returned |}) /\
  run self (map ParseLine lines) =
  mkBuilder (artifact self) (lineno self + Z.of_nat (length lines)) (parsers self)
            (name self) /\
  Forall (fun x => trace x.2 = [] /\ status x.2 = Returned)
         (history self (map ParseLine lines)).
Proof.
  intros Hall. split; [intros line; now apply parse_line_all_complete|].
  revert self Hall; induction lines as [|l lines IH]; intros self Hall.
  - split; [|constructor]. destruct self as [a n ps nm]. cbn. f_equal. lia.
  - cbn [map history]. rewrite run_cons. cbn [step].
    rewrite (parse_line_all_complete self l Hall). cbn [after trace status snd].
    destruct (IH (mkBuilder (artifact self) (lineno self + 1) (parsers self) (name self)) Hall)
      as [Hrun Hhist].
    split.
    + rewrite Hrun. cbn [artifact lineno parsers name length]. f_equal. lia.
    + constructor; [now split | exact Hhist].
Qed.

(** X5.  The line number given to the sub-parsers is the builder's counter:
    the starting value plus the number of earlier [parse_line] calls that
    returned; for a fresh builder, that number itself.  So the line that
    follows a call that raised is handed out under the same number as the
    line of the failed call. *)
Theorem X5_line_numbers (self : builder) (line : string) :
  (forall c, c ∈ trace (parse_line self line) -> arg_lineno c = lineno self) /\
  (forall ops line' c,
      c ∈ trace (parse_line (run self ops) line') ->
      arg_lineno c = (lineno self + Z.of_nat (completed (history self ops)))%Z) /\
  (forall v url check_errors ops line' c,
      c ∈ trace (parse_line (run (construct v url check_errors) ops) line') ->
      arg_lineno c = Z.of_nat (completed (history (construct v url check_errors) ops))) /\
  (forall e line' c,
      status (parse_line self line) = Raised e ->
      c ∈ trace (parse_line (after (parse_line self line)) line') ->
      arg_lineno c = lineno self).
Proof.
  split; [|split; [|split]].
  - intros c Hc. now apply parse_line_trace_args in Hc as (_ & Hn & _).
  - intros ops line' c Hc. apply parse_line_trace_args in Hc as (_ & Hn & _).
    now rewrite Hn, run_lineno.
  - intros v url check_errors ops line' c Hc.
    apply parse_line_trace_args in Hc as (_ & Hn & _).
    rewrite Hn, run_lineno. now destruct v.
  - intros e line' c He Hc. apply parse_line_trace_args in Hc as (_ & Hn & _).
    rewrite Hn, parse_line_lineno. now rewrite He.
Qed.

(** *** The dict only grows *)

Lemma step_dom (self : builder) op :
  dom (artifact self) ⊆ dom (artifact (after (step self op))).
Proof.
  destruct op as [line|]; cbn [step after].
  - now rewrite parse_line_artifact.
  - cbn [get_artifact fst artifact]. rewrite dom_foldl_store. apply union_subseteq_l.
Qed.

Lemma run_dom (self : builder) ops :
  dom (artifact self) ⊆ dom (artifact (run self ops)).
Proof.
  revert self; induction ops as [|op ops IH]; intros self; [reflexivity|].
  rewrite run_cons. etrans; [apply step_dom | apply IH].
Qed.

(** X6.  [get_artifact] never removes a key: the keys of the returned dict
    are those [self.artifact] had plus the names of the sub-parsers, and a
    key that is not the name of a sub-parser keeps its value.  Over any
    sequence of calls the keys of [self.artifact] only grow, so "logurl"
    stays a key of every builder made by one of the constructors. *)
Theorem X6_get_artifact_keeps_keys (self : builder) :
  dom (get_artifact self).2 =
  dom (artifact self) ∪ list_to_set (map name_of (parsers self)) /\
  (forall k, k ∉ map name_of (parsers self) ->
             (get_artifact self).2 !! k = artifact self !! k) /\
  (forall ops, dom (artifact self) ⊆ dom (artifact (run self ops))) /\
  (forall v url check_errors ops,
      "logurl" ∈ dom (artifact (run (construct v url check_errors) ops))).
Proof.
  split; [|split; [|split]].
  - cbn [get_artifact snd]. apply dom_foldl_store.
  - intros k Hk. rewrite get_artifact_lookup. apply named_None in Hk. now rewrite Hk.
  - intros ops. apply run_dom.
  - intros v url check_errors ops.
    apply (run_dom (construct v url check_errors) ops).
    destruct v; cbn; rewrite dom_singleton_L; now apply elem_of_singleton.
Qed.

Lemma named_last k (pre post : list parser) p :
  name_of p = k ->
  Forall (fun q => name_of q <> k) post ->
  named k (pre ++ p :: post)%list = Some p.
Proof.
  intros Hp Hpost.
  assert (Hnone : named k post = None).
  { apply named_None. intros Hin. apply list_elem_of_fmap in Hin as (q & Hq & Hin).
    rewrite Forall_forall in Hpost. now apply (Hpost q Hin). }
  induction pre as [|x pre IH]; cbn [app named].
  - rewrite Hnone. now destruct (decide (name_of p = k)).
  - now rewrite IH.
Qed.

(** X7.  A sub-parser whose name no later sub-parser of the list bears finds
    its own artifact under that name in the returned dict, whatever stood
    there before and whatever the earlier sub-parsers are called: of two
    sub-parsers with one name the later is kept, and a sub-parser named
    "logurl" takes the place of the url. *)
Theorem X7_last_name_wins (self : builder) (pre post : list parser) (p : parser) :
  parsers self = (pre ++ p :: post)%list ->
  Forall (fun q => name_of q <> name_of p) post ->
  (get_artifact self).2 !! name_of p = Some (VFrag (fragment_of p)).
Proof.
  intros Hps Hpost. rewrite get_artifact_lookup, Hps.
  now rewrite (named_last (name_of p) pre post p eq_refl Hpost).
Qed.

(** *** [get_artifact] between the lines *)

Lemma parse_line_same_parsing (b b' : builder) line :
  same_parsing b b' ->
  same_parsing (after (parse_line b line)) (after (parse_line b' line)) /\
  trace (parse_line b line) = trace (parse_line b' line) /\
  status (parse_line b line) = status (parse_line b' line).
Proof.
  intros (Hp & Hl & Hn).
  assert (Hs : status (parse_line b line) = status (parse_line b' line))
    by now rewrite !parse_line_status, Hp, Hl.
  split; [|split].
  - split; [|split].
    + now rewrite !parse_line_parsers, Hp, Hl.
    + now rewrite !parse_line_lineno, Hs, Hl.
    + now rewrite !parse_line_name.
  - now rewrite !parse_line_trace, Hp, Hl.
  - exact Hs.
Qed.

Lemma run_same_parsing (b b' : builder) ops :
  same_parsing b b' ->
  same_parsing (run b ops) (run b' (map ParseLine (lines_of ops))) /\
  seen_by_parsers (history b ops) =
  seen_by_parsers (history b' (map ParseLine (lines_of ops))).
Proof.
  revert b b'; induction ops as [|[line|] ops IH]; intros b b' Hsame.
  - split; [exact Hsame | reflexivity].
  - destruct (parse_line_same_parsing b b' line Hsame) as (Hafter & Ht & Hs).
    destruct (IH _ _ Hafter) as [Hrun Hseen].
    cbn [lines_of map]. rewrite !run_cons. split; [exact Hrun|].
    unfold seen_by_parsers in *. cbn [history List.filter fst is_parse_line map snd step].
    now rewrite Ht, Hs, Hseen.
  - cbn [lines_of]. rewrite run_cons. apply IH.
    destruct Hsame as (Hp & Hl & Hn). now split.
Qed.

(** X8.  Calls of [get_artifact] made between the lines do not change the
    parsing: the sub-parsers, the counter and the name end as they do
    without those calls, and every [parse_line] makes the same invocations
    and ends the same way. *)
Theorem X8_get_artifact_transparent (self : builder) (ops : list Op) :
  same_parsing (run self ops) (run self (map ParseLine (lines_of ops))) /\
  seen_by_parsers (history self ops) =
  seen_by_parsers (history self (map ParseLine (lines_of ops))).
Proof. apply run_same_parsing. now split. Qed.

(** *** Each sub-parser for itself *)

Lemma dispatch_returned_map idx (ps : list parser) line n :
  (dispatch idx ps line n).2 = Returned ->
  (dispatch idx ps line n).1.1 = map (advance line n) ps.
Proof.
  revert idx; induction ps as [|p rest IH]; intros idx; [reflexivity|].
  cbn [map]. unfold advance at 1.
  destruct (complete p) eqn:Hc.
  - rewrite (dispatch_skip idx p rest line n Hc). cbn [fst snd]. intros H.
    now rewrite (IH _ H).
  - destruct (sp_parse_line (pstate p) line n) as [st [|e]] eqn:Hp.
    + rewrite (dispatch_call idx p rest line n st Hc Hp). cbn [fst snd]. intros H.
      now rewrite (IH _ H).
    + rewrite (dispatch_raise idx p rest line n st e Hc Hp). discriminate.
Qed.

(** X9.  In a run of lines in which every call returns, the sub-parsers do
    not affect each other: each ends in the state it reaches on its own
    from the cut lines, numbered on from the counter, taking lines until it
    is complete. *)
Theorem X9_sub_parsers_independent (self : builder) (lines : list string) :
  Forall (fun x => returned x.2 = true) (history self (map ParseLine lines)) ->
  parsers (run self (map ParseLine lines)) =
  map (advance_all lines (lineno self)) (parsers self).
Proof.
  revert self; induction lines as [|l lines IH]; intros self Hall.
  - cbn. now rewrite map_id.
  - cbn [map history] in Hall. apply Forall_cons in Hall as [Hl Hall].
    cbn [snd step] in Hl, Hall. unfold returned in Hl.
    destruct (status (parse_line self l)) eqn:Hs; [|discriminate].
    cbn [map]. rewrite run_cons. cbn [step]. rewrite (IH _ Hall).
    rewrite parse_line_lineno, Hs, parse_line_parsers.
    rewrite parse_line_status in Hs. rewrite (dispatch_returned_map _ _ _ _ Hs).
    rewrite map_map. reflexivity.
Qed.

(** *** The base class on its own *)

Lemma step_no_parsers (self : builder) op :
  parsers self = [] ->
  step self op =
  {| after := mkBuilder (artifact self)
                        (lineno self + if is_parse_line op then 1 else 0)
                        [] (name self);
     trace := [];
     status := Returned |}.
Proof.
  intros Hps. destruct op as [line|]; cbn [step is_parse_line].
  - rewrite parse_line_all_complete by (rewrite Hps; constructor). now rewrite Hps.
  - unfold get_artifact. rewrite Hps. cbn. do 2 f_equal. lia.
Qed.

Lemma run_no_parsers (self : builder) ops :
  parsers self = [] ->
  run self ops =
  mkBuilder (artifact self) (lineno self + Z.of_nat (length (lines_of ops))) []
            (name self) /\
  Forall (fun x => trace x.2 = [] /\ status x.2 = Returned) (history self ops).
Proof.
  revert self; induction ops as [|op ops IH]; intros self Hps.
  - split; [|constructor]. destruct self as [a n ps nm]. cbn in *. subst ps.
    f_equal. lia.
  - cbn [history]. rewrite run_cons, (step_no_parsers self op Hps).
    cbn [after trace status snd].
    destruct (IH (mkBuilder (artifact self)
                            (lineno self + if is_parse_line op then 1 else 0)
                            [] (name self)) eq_refl) as [Hrun Hhist].
    split; [|constructor; [now split | exact Hhist]].
    rewrite Hrun. cbn [artifact lineno name]. f_equal.
    destruct op; cbn [is_parse_line lines_of length]; lia.
Qed.

(** X10.  A builder of the base class itself has no sub-parser, and none
    is ever added: whatever is called on it, every call returns without an
    invocation, the counter counts the lines, the name stays
    "Generic Artifact", and [get_artifact] returns the dict with the single
    key "logurl". *)
Theorem X10_base_builder_alone (url : option string) (ops : list Op) :
  run (ArtifactBuilderBase url : builder) ops =
  mkBuilder {[ "logurl" := of_url url ]} (Z.of_nat (length (lines_of ops))) []
            "Generic Artifact" /\
  (get_artifact (run (ArtifactBuilderBase url : builder) ops)).2 =
  {[ "logurl" := of_url url ]} /\
  Forall (fun x => trace x.2 = [] /\ status x.2 = Returned)
         (history (ArtifactBuilderBase url : builder) ops).
Proof.
  destruct (run_no_parsers (ArtifactBuilderBase url) ops eq_refl) as [Hrun Hhist].
  split; [|split; [|exact Hhist]].
  - rewrite Hrun. cbn. f_equal.
  - rewrite Hrun. reflexivity.
Qed.

End MoreClaims.

(** *** Runs of the sample implementation *)

Lemma X4_witness :
  Forall (fun p => complete p = true) (parsers Sample.viewer_all_done) /\
  status (parse_line Sample.viewer_all_done "BOOM") = Returned /\
  run Sample.viewer_all_done (map ParseLine ["a"; "BOOM"]) =
  mkBuilder (artifact Sample.viewer_all_done) 3 (parsers Sample.viewer_all_done)
            "Structured Log".
Proof.
  assert (H : Forall (fun p => complete p = true) (parsers Sample.viewer_all_done)).
  { repeat (constructor; [reflexivity|]). constructor. }
  destruct (X4_all_complete_only_counts Sample.viewer_all_done ["a"; "BOOM"] H)
    as (Hline & Hrun & _).
  split; [exact H|]. split.
  - now rewrite (Hline "BOOM").
  - rewrite Hrun. reflexivity.
Defined.

Lemma X5_witness :
  status (parse_line Sample.viewer "BOOM") = Raised (Sample.ParseError 0) /\
  trace (parse_line (after (parse_line Sample.viewer "BOOM")) "next") <> [] /\
  Forall (fun c => arg_lineno c = 0%Z)
         (trace (parse_line (after (parse_line Sample.viewer "BOOM")) "next")).
Proof.
  assert (Hs : status (parse_line Sample.viewer "BOOM") = Raised (Sample.ParseError 0))
    by (vm_compute; reflexivity).
  split; [exact Hs|]. split; [vm_compute; discriminate|].
  destruct (X5_line_numbers Sample.viewer "BOOM") as (_ & _ & _ & Hnext).
  apply Forall_forall. intros c Hc.
  exact (Hnext (Sample.ParseError 0) "next" c Hs Hc).
Defined.

Lemma X7_witness :
  (get_artifact Sample.viewer_steps_done).2 !! "step_data" =
  Some (VFrag [(0%Z, "STEP-END")]).
Proof.
  exact (X7_last_name_wins Sample.viewer_steps_done
           [Sample.header_at [(0%Z, "STEP-END")] false]
           []
           (Sample.steps_at [(0%Z, "STEP-END")] true)
           eq_refl
           (List.Forall_nil _)).
Defined.

Lemma X9_witness :
  Forall (fun x => returned x.2 = true)
         (history Sample.viewer (map ParseLine ["a"; "STEP-END"; "b"])) /\
  parsers (run Sample.viewer (map ParseLine ["a"; "STEP-END"; "b"])) =
  [Sample.header_at [(0%Z, "a"); (1%Z, "STEP-END"); (2%Z, "b")] false;
   Sample.steps_at [(0%Z, "a"); (1%Z, "STEP-END")] true].
Proof.
  assert (H : Forall (fun x => returned x.2 = true)
                     (history Sample.viewer (map ParseLine ["a"; "STEP-END"; "b"]))).
  { repeat (constructor; [vm_compute; reflexivity|]). constructor. }
  split; [exact H|].
  rewrite (X9_sub_parsers_independent Sample.viewer ["a"; "STEP-END"; "b"] H).
  vm_compute. reflexivity.
Defined.
